(** * OpenQL crossbar example: the calls the script makes on the compiler library

    Embedding of [src/ql/arch/crossbar/example.py].  The script is a
    straight-line sequence of calls into two modules it imports: [os]
    (only [os.path.dirname] and [os.path.join]) and [openql] (bound to [ql]).
    Neither module is part of the repository, so both are parameters of the
    development: the path functions are arbitrary pure, possibly raising,
    functions on strings, and the compiler library is an arbitrary
    transition function on an opaque world.  What is verified is what the
    script itself decides: which calls are made, with which arguments, in
    which order, and what happens when one of them raises.

    [example] is the body of the script, lines 5 to 34, in a process where
    the two imports have returned and [__file__] is defined; [main] is the
    whole file on a host where an import may raise and [__file__] may be
    missing. *)

From Stdlib Require Import List String Ascii ZArith Bool Lia Sorted.
Import ListNotations.
Open Scope string_scope.
Open Scope Z_scope.

(** ** Python values that cross the boundary of the script *)

(** An exception object: the class name and its message. *)
Record exn := PyExc { exc_type : string; exc_msg : string }.

(** An instance of a library class.  Instantiating a class always yields a
    fresh object; objects are numbered in the order the process creates
    them. *)
Record obj := Obj { obj_id : nat }.

(** What a library function hands back; the script keeps none of these. *)
Inductive value :=
| VNone
| VStr (s : string).

(** Something a call makes visible outside the process. *)
Inductive output :=
| Stdout (line : string)
| FileWrite (path content : string).

(** ** The part of the openql API the file refers to *)

Module ql.

(** One call on the library.  For the three classes the last argument is
    the object under construction ([self]); for the methods the first
    argument is the receiver. *)
Inductive call :=
| set_option (key val : string)
| Platform (name config_file : string) (self : obj)
| Program (name : string) (platform : obj) (nqubits ncreg : Z) (self : obj)
| Kernel (name : string) (platform : obj) (nqubits ncreg : Z) (self : obj)
| gate (kernel : obj) (name : string) (qubits : list Z)
| add_kernel (program kernel : obj)
| compile (program : obj)
| qasm (program : obj).

(** The library itself: given a call and the current world it yields the
    next world, what became observable during the call, and either the
    exception the call raised or its return value. *)
Definition library (W : Type) : Type :=
  call -> W -> W * list output * (exn + value).

End ql.

(** ** What a run leaves behind *)

Inductive event :=
| Called (c : ql.call) (outs : list output) (r : exn + value)
| Printed (line : string).

Section Runtime.

Context {W : Type}.

(** The process the script runs in.  [__file__] is the module global of
    that name, [cwd] the working directory, [openql] the imported library
    and [world] the state of everything outside the script at start. *)
Record process := {
  __file__ : string;
  cwd : string;
  openql : ql.library W;
  world : W
}.

Record state := {
  st_world : W;
  st_next : nat;
  st_trace : list event
}.

Definition initial (p : process) : state :=
  {| st_world := world p; st_next := 0%nat; st_trace := [] |}.

(** Statements read the process, thread the state and may raise. *)
Definition M (A : Type) : Type := process -> state -> state * (exn + A).

Definition ret {A} (a : A) : M A := fun _ st => (st, inr a).

Definition bind {A B} (m : M A) (k : A -> M B) : M B :=
  fun p st =>
    match m p st with
    | (st', inl e) => (st', inl e)
    | (st', inr a) => k a p st'
    end.

Definition raise {A} (e : exn) : M A := fun _ st => (st, inl e).

(** The result of a pure function that may raise. *)
Definition lift {A} (r : exn + A) : M A := fun _ st => (st, r).

(** [f(args)] on the library: the library moves the world, the event is
    recorded, and an exception raised by the library is raised here. *)
Definition call (c : ql.call) : M value :=
  fun p st =>
    match openql p c (st_world st) with
    | (w', outs, r) =>
        ({| st_world := w';
            st_next := st_next st;
            st_trace := (st_trace st ++ [Called c outs r])%list |}, r)
    end.

(** [C(args)]: a fresh object is allocated and the class's constructor is
    run on it; the object is the value of the expression only if the
    constructor returns. *)
Definition new (ctor : obj -> ql.call) : M obj :=
  fun p st =>
    let self := Obj (st_next st) in
    match openql p (ctor self) (st_world st) with
    | (w', outs, r) =>
        ({| st_world := w';
            st_next := S (st_next st);
            st_trace := (st_trace st ++ [Called (ctor self) outs r])%list |},
         match r with
         | inl e => inl e
         | inr _ => inr self
         end)
    end.

(** [print(s)]. *)
Definition print (s : string) : M unit :=
  fun _ st =>
    ({| st_world := st_world st;
        st_next := st_next st;
        st_trace := (st_trace st ++ [Printed s])%list |}, inr tt).

(** [os.getcwd()]. *)
Definition getcwd : M string := fun p st => (st, inr (cwd p)).

(** The module global [__file__]. *)
Definition get_file : M string := fun p st => (st, inr (__file__ p)).

End Runtime.

Arguments process : clear implicits.
Arguments state : clear implicits.
Arguments M : clear implicits.

Declare Scope py_scope.
Delimit Scope py_scope with py.
Notation "x <- m ;; k" := (bind m (fun x => k))
  (at level 61, m at next level, right associativity) : py_scope.
Notation "m ;; k" := (bind m (fun _ => k))
  (at level 61, right associativity) : py_scope.

(** ** The script *)

Section Example.

Context {W : Type}.

(** [os.path.dirname] and [os.path.join] of the interpreter's [os]
    module: functions of their string arguments alone. *)
Variable dirname : string -> exn + string.
Variable join : string -> string -> exn + string.

Definition num_qubits : Z := 2.
Definition num_creg : Z := 0.

(** example.py, statement by statement. *)
Definition example : M W unit :=
  (file <- get_file ;;
   curdir <- lift (dirname file) ;;
   output_dir <- lift (join curdir "output") ;;
   call (ql.set_option "output_dir" output_dir) ;;
   call (ql.set_option "optimize" "no") ;;
   call (ql.set_option "scheduler" "ASAP") ;;
   call (ql.set_option "log_level" "LOG_DEBUG") ;;
   config <- lift (join curdir "hardware_config_crossbar.json") ;;
   platform <- new (ql.Platform "crossbar" config) ;;
   program <- new (ql.Program "crossbar_test" platform num_qubits num_creg) ;;
   kernel <- new (ql.Kernel "test" platform num_qubits num_creg) ;;
   call (ql.gate kernel "pepez" [0]) ;;
   call (ql.gate kernel "prepz" [1]) ;;
   call (ql.gate kernel "x" [0]) ;;
   call (ql.gate kernel "cnot" [0; 1]) ;;
   call (ql.gate kernel "shuttle_up" [1]) ;;
   call (ql.gate kernel "measure" [1]) ;;
   call (ql.add_kernel program kernel) ;;
   call (ql.compile program) ;;
   ret tt)%py.

(** Running the script as the main module of process [p]. *)
Definition run (p : process W) : state W * (exn + unit) :=
  example p (initial p).

End Example.

Arguments run {W} dirname join p.
Arguments example {W} dirname join.

(** ** The script with its imports *)

(** The [os] module as far as the script uses it. *)
Record os_module := {
  os_path_dirname : string -> exn + string;
  os_path_join : string -> string -> exn + string
}.

(** The host the file is run on.  [import_os] and [import_openql] are what
    the two import statements of lines 1 and 2 yield there: the module, or
    the exception the import raises.  [file_global] is the module global
    [__file__], which is missing when the text is run without a file.
    [host_world] is the state of everything outside the script once the
    imports are over. *)
Record host {W : Type} := {
  import_os : exn + os_module;
  import_openql : exn + ql.library W;
  file_global : option string;
  host_cwd : string;
  host_world : W
}.

Arguments host : clear implicits.

(** What looking up a name that is not bound raises. *)
Definition name_error (name : string) : exn :=
  PyExc "NameError" ("name '" ++ name ++ "' is not defined").

(** example.py from its first line: [import os], then
    [from openql import openql as ql], then the body, whose first expression
    looks up [__file__] before anything is called. *)
Definition main {W} (h : host W) : state W * (exn + unit) :=
  let st0 := {| st_world := host_world h; st_next := 0%nat; st_trace := [] |} in
  match import_os h with
  | inl e => (st0, inl e)
  | inr os =>
      match import_openql h with
      | inl e => (st0, inl e)
      | inr ql =>
          match file_global h with
          | None => (st0, inl (name_error "__file__"))
          | Some file =>
              run (os_path_dirname os) (os_path_join os)
                  {| __file__ := file; cwd := host_cwd h;
                     openql := ql; world := host_world h |}
          end
      end
  end.

(** One of the two imports raises [e] on the host. *)
Definition import_raises {W} (h : host W) (e : exn) : Prop :=
  import_os h = inl e \/ import_openql h = inl e.

(** ** Observations on a run *)

Definition trace {W} (r : state W * (exn + unit)) : list event :=
  st_trace (fst r).

Definition outcome {W} (r : state W * (exn + unit)) : exn + unit := snd r.

(** The script ran to its last statement. *)
Definition succeeded {W} (r : state W * (exn + unit)) : Prop :=
  outcome r = inr tt.

(** The library calls of a trace, in order. *)
Definition calls (t : list event) : list ql.call :=
  flat_map (fun ev =>
              match ev with
              | Called c _ _ => [c]
              | Printed _ => []
              end) t.

(** The lines the script itself printed. *)
Definition printed (t : list event) : list string :=
  flat_map (fun ev =>
              match ev with
              | Called _ _ _ => []
              | Printed s => [s]
              end) t.

(** A library call of the trace raised [e]. *)
Definition call_raised (t : list event) (e : exn) : Prop :=
  exists c outs, In (Called c outs (inl e)) t.

Definition no_call_raised (t : list event) : Prop :=
  forall e, ~ call_raised t e.

(** Everything a run made observable, in order. *)
Definition observable (t : list event) : list output :=
  flat_map (fun ev =>
              match ev with
              | Called _ outs _ => outs
              | Printed s => [Stdout s]
              end) t.

Definition option_settings (cs : list ql.call) : list (string * string) :=
  flat_map (fun c =>
              match c with
              | ql.set_option k v => [(k, v)]
              | _ => []
              end) cs.

Definition gate_invocations (cs : list ql.call)
  : list (obj * string * list Z) :=
  flat_map (fun c =>
              match c with
              | ql.gate k name qubits => [(k, name, qubits)]
              | _ => []
              end) cs.

(** A gate call with the name [pepez]. *)
Definition is_pepez (c : ql.call) : bool :=
  match c with
  | ql.gate _ name _ => String.eqb name "pepez"
  | _ => false
  end.

(** The names of the gates appended, in order. *)
Definition gate_names (cs : list ql.call) : list string :=
  map (fun g => snd (fst g)) (gate_invocations cs).

Definition is_constructor (c : ql.call) : bool :=
  match c with
  | ql.Platform _ _ _ | ql.Program _ _ _ _ _ | ql.Kernel _ _ _ _ _ => true
  | _ => false
  end.

Definition is_compile (c : ql.call) : bool :=
  match c with
  | ql.compile _ => true
  | _ => false
  end.

Definition is_qasm (c : ql.call) : bool :=
  match c with
  | ql.qasm _ => true
  | _ => false
  end.

(** The filesystem paths among the arguments of the calls: the value given
    to the [output_dir] option and the configuration file of a platform. *)
Definition paths_passed (cs : list ql.call) : list string :=
  flat_map (fun c =>
              match c with
              | ql.set_option k v => if String.eqb k "output_dir" then [v] else []
              | ql.Platform _ config_file _ => [config_file]
              | _ => []
              end) cs.

(** The four steps of the script. *)
Inductive phase := SetOptions | Construct | AppendGates | Compile.

Definition phase_of (c : ql.call) : option phase :=
  match c with
  | ql.set_option _ _ => Some SetOptions
  | ql.Platform _ _ _ | ql.Program _ _ _ _ _ | ql.Kernel _ _ _ _ _ =>
      Some Construct
  | ql.gate _ _ _ => Some AppendGates
  | ql.add_kernel _ _ | ql.compile _ => Some Compile
  | ql.qasm _ => None
  end.

Definition phase_rank (c : ql.call) : nat :=
  match phase_of c with
  | Some SetOptions => 0
  | Some Construct => 1
  | Some AppendGates => 2
  | Some Compile => 3
  | None => 4
  end.

(** [c1] may come before [c2]. *)
Definition phase_le (c1 c2 : ql.call) : Prop :=
  (phase_rank c1 <= phase_rank c2)%nat.

(** [l1] is an initial segment of [l2]. *)
Definition prefix {A} (l1 l2 : list A) : Prop :=
  exists k, l2 = (l1 ++ k)%list.

(** ** The call sequence the script text describes *)

Definition options (output_dir : string) : list ql.call :=
  [ ql.set_option "output_dir" output_dir;
    ql.set_option "optimize" "no";
    ql.set_option "scheduler" "ASAP";
    ql.set_option "log_level" "LOG_DEBUG" ].

Definition constructions (config : string) (platform program kernel : obj)
  : list ql.call :=
  [ ql.Platform "crossbar" config platform;
    ql.Program "crossbar_test" platform 2 0 program;
    ql.Kernel "test" platform 2 0 kernel ].

Definition gates (kernel : obj) : list ql.call :=
  [ ql.gate kernel "pepez" [0];
    ql.gate kernel "prepz" [1];
    ql.gate kernel "x" [0];
    ql.gate kernel "cnot" [0; 1];
    ql.gate kernel "shuttle_up" [1];
    ql.gate kernel "measure" [1] ].

Definition finish (program kernel : obj) : list ql.call :=
  [ ql.add_kernel program kernel; ql.compile program ].

Definition script_calls (output_dir config : string) : list ql.call :=
  (options output_dir
     ++ constructions config (Obj 0) (Obj 1) (Obj 2)
     ++ gates (Obj 2)
     ++ finish (Obj 1) (Obj 2))%list.

Section Plan.

Variable dirname : string -> exn + string.
Variable join : string -> string -> exn + string.

(** What the three path computations leave of the script: the calls it
    is going to make, and the exception that cuts it short when a path
    computation raises. *)
Definition plan (file : string) : list ql.call * option exn :=
  match dirname file with
  | inl e => ([], Some e)
  | inr curdir =>
      match join curdir "output" with
      | inl e => ([], Some e)
      | inr output_dir =>
          match join curdir "hardware_config_crossbar.json" with
          | inl e => (options output_dir, Some e)
          | inr config => (script_calls output_dir config, None)
          end
      end
  end.

(** A path computation of the script raises [e] on [file]. *)
Definition path_raises (file : string) (e : exn) : Prop :=
  dirname file = inl e
  \/ exists curdir, dirname file = inr curdir
       /\ (join curdir "output" = inl e
           \/ join curdir "hardware_config_crossbar.json" = inl e).

End Plan.

(** Calling the library on each element of a list, left to right, until a
    call raises. *)
Fixpoint exec {W} (lib : ql.library W) (cs : list ql.call) (w : W)
  : W * list event * option exn :=
  match cs with
  | [] => (w, [], None)
  | c :: cs' =>
      match lib c w with
      | (w', outs, inl e) => (w', [Called c outs (inl e)], Some e)
      | (w', outs, inr v) =>
          match exec lib cs' w' with
          | (w'', t, r) => (w'', Called c outs (inr v) :: t, r)
          end
      end
  end.

(** ** A sample host

    Concrete instances of the parameters, used to run the script: the path
    functions as a POSIX interpreter has them, and three toy libraries. *)

Module posix.

Definition sep : ascii := "/"%char.

(** On a reversed string: drop everything after the last separator. *)
Fixpoint upto_sep (rev_p : list ascii) : list ascii :=
  match rev_p with
  | [] => []
  | c :: r => if Ascii.eqb c sep then rev_p else upto_sep r
  end.

(** On a reversed string: strip the trailing separators. *)
Fixpoint rstrip (rev_p : list ascii) : list ascii :=
  match rev_p with
  | [] => []
  | c :: r => if Ascii.eqb c sep then rstrip r else rev_p
  end.

Definition dirname (p : string) : exn + string :=
  let head := upto_sep (rev (list_ascii_of_string p)) in
  inr (string_of_list_ascii
         (rev (match rstrip head with
               | [] => head
               | stripped => stripped
               end))).

Definition endswith_sep (a : string) : bool :=
  match rev (list_ascii_of_string a) with
  | c :: _ => Ascii.eqb c sep
  | [] => false
  end.

Definition join (a b : string) : exn + string :=
  inr (match b with
       | String c _ =>
           if Ascii.eqb c sep then b
           else if (String.eqb a "" || endswith_sep a)%bool then a ++ b
                else a ++ "/" ++ b
       | EmptyString =>
           if (String.eqb a "" || endswith_sep a)%bool then a
           else a ++ "/"
       end).

End posix.

Module Sample.

(** A library that accepts every call and shows nothing. *)
Definition quiet : ql.library unit :=
  fun _ w => (w, [], inr VNone).

(** A library that knows the gates of its platform and raises on any
    other gate name. *)
Definition known_gates : list string :=
  ["prepz"; "x"; "cnot"; "shuttle_up"; "measure"].

Definition unknown_gate (name : string) : exn :=
  PyExc "RuntimeError" ("unknown gate " ++ name).

Definition strict : ql.library unit :=
  fun c w =>
    match c with
    | ql.gate _ name _ =>
        if existsb (String.eqb name) known_gates
        then (w, [], inr VNone)
        else (w, [], inl (unknown_gate name))
    | _ => (w, [], inr VNone)
    end.

(** A library that keeps the log level it was given and, at level
    [LOG_DEBUG], writes a line to standard output on every call; its
    [compile] writes the program file. *)
Definition call_name (c : ql.call) : string :=
  match c with
  | ql.set_option _ _ => "set_option"
  | ql.Platform _ _ _ => "Platform"
  | ql.Program _ _ _ _ _ => "Program"
  | ql.Kernel _ _ _ _ _ => "Kernel"
  | ql.gate _ _ _ => "gate"
  | ql.add_kernel _ _ => "add_kernel"
  | ql.compile _ => "compile"
  | ql.qasm _ => "qasm"
  end.

Definition logging : ql.library string :=
  fun c level =>
    let level' :=
      match c with
      | ql.set_option k v => if String.eqb k "log_level" then v else level
      | _ => level
      end in
    (level',
     ((if String.eqb level' "LOG_DEBUG" then [Stdout (call_name c)] else [])
        ++ (if is_compile c then [FileWrite "crossbar_test.qasm" ""] else []))%list,
     inr VNone).

Definition script_path : string :=
  "/home/user/OpenQL/src/ql/arch/crossbar/example.py".

Definition quiet_process : process unit :=
  {| __file__ := script_path; cwd := "/home/user";
     openql := quiet; world := tt |}.

Definition strict_process : process unit :=
  {| __file__ := script_path; cwd := "/home/user";
     openql := strict; world := tt |}.

Definition logging_process : process string :=
  {| __file__ := script_path; cwd := "/tmp";
     openql := logging; world := "LOG_NOTHING" |}.

(** Hosts: one with both modules, one on which openql is not installed. *)
Definition posix_os : os_module :=
  {| os_path_dirname := posix.dirname; os_path_join := posix.join |}.

Definition no_openql : exn :=
  PyExc "ModuleNotFoundError" "No module named 'openql'".

Definition quiet_host : host unit :=
  {| import_os := inr posix_os; import_openql := inr quiet;
     file_global := Some script_path; host_cwd := "/home/user";
     host_world := tt |}.

Definition bare_host : host unit :=
  {| import_os := inr posix_os; import_openql := inl no_openql;
     file_global := Some script_path; host_cwd := "/home/user";
     host_world := tt |}.

(** Path functions of a host on which a path computation raises: a
    [dirname] that accepts no argument, and a [join] that refuses the name
    of the configuration file. *)
Definition bad_path : exn :=
  PyExc "TypeError" "expected str, bytes or os.PathLike object".

Definition no_dirname : string -> exn + string :=
  fun _ => inl bad_path.

Definition picky_join (a b : string) : exn + string :=
  if String.eqb b "hardware_config_crossbar.json" then inl bad_path
  else posix.join a b.

End Sample.

(** The outcome of the script, from what the calls and the path
    computations did. *)
Definition finish_with (r pe : option exn) : exn + unit :=
  match r, pe with
  | Some e, _ => inl e
  | None, Some e => inl e
  | None, None => inr tt
  end.

(** A path computation of the script raises [e] on the host: the lookup
    of [__file__] that the first one starts with, or one of the three calls
    of the path functions. *)
Definition path_computation_raises {W} (h : host W) (e : exn) : Prop :=
  exists os,
    import_os h = inr os
    /\ match file_global h with
       | None => e = name_error "__file__"
       | Some file =>
           path_raises (os_path_dirname os) (os_path_join os) file e
       end.

(** The script fails exactly when a library call or a path computation
    raises. *)
Definition fails_only_by_calls_or_paths {W} (h : host W) : Prop :=
  (exists e, outcome (main h) = inl e)
  <-> (exists e, call_raised (trace (main h)) e
                 \/ path_computation_raises h e).

(** Every output of the trace was produced during a call of [compile]. *)
Definition outputs_only_from_compile (t : list event) : Prop :=
  forall c outs r,
    In (Called c outs r) t -> outs <> [] -> is_compile c = true.

(** The run calls no [qasm], prints nothing itself and, when it reaches the
    end, shows nothing but what [compile] produced. *)
Definition only_compile_observable {W} (dirname : string -> exn + string)
    (join : string -> string -> exn + string) (p : process W) : Prop :=
  (forall c, In c (calls (trace (run dirname join p))) -> is_qasm c = false)
  /\ printed (trace (run dirname join p)) = []
  /\ (succeeded (run dirname join p) ->
      outputs_only_from_compile (trace (run dirname join p))).

(** * Properties *)

(** ** Lists *)

Lemma prefix_refl {A} (l : list A) : prefix l l.
Proof. exists []. now rewrite app_nil_r. Qed.

Lemma prefix_nil {A} (l : list A) : prefix [] l.
Proof. now exists l. Qed.

Lemma prefix_cons {A} (a : A) (l1 l2 : list A) :
  prefix l1 l2 -> prefix (a :: l1) (a :: l2).
Proof. intros [k ->]. now exists k. Qed.

Lemma prefix_trans {A} (l1 l2 l3 : list A) :
  prefix l1 l2 -> prefix l2 l3 -> prefix l1 l3.
Proof.
  intros [k1 ->] [k2 ->]. exists (k1 ++ k2)%list. now rewrite app_assoc.
Qed.

Lemma prefix_In {A} (l1 l2 : list A) (a : A) :
  prefix l1 l2 -> In a l1 -> In a l2.
Proof. intros [k ->] H. apply in_or_app. now left. Qed.

(** An initial segment of [a ++ b] that holds an element not in [a]
    extends over all of [a]. *)
Lemma prefix_reaches {A} (a b l : list A) (x : A) :
  prefix l (a ++ b) -> In x l -> ~ In x a -> prefix a l.
Proof.
  revert l. induction a as [|y a IH]; intros l [k H] Hin Hn.
  - apply prefix_nil.
  - destruct l as [|z l]; [contradiction|].
    simpl in H. inversion H; subst. apply prefix_cons. apply IH.
    + now exists k.
    + destruct Hin as [->|Hin]; [|exact Hin].
      exfalso. apply Hn. now left.
    + intros Hx. apply Hn. now right.
Qed.

Lemma prefix_filter {A} (f : A -> bool) (l1 l2 : list A) :
  prefix l1 l2 -> prefix (filter f l1) (filter f l2).
Proof. intros [k ->]. exists (filter f k). apply filter_app. Qed.

Lemma prefix_length {A} (l1 l2 : list A) :
  prefix l1 l2 -> (List.length l1 <= List.length l2)%nat.
Proof. intros [k ->]. rewrite length_app. lia. Qed.

Lemma prefix_sorted {A} (R : A -> A -> Prop) (l1 l2 : list A) :
  prefix l1 l2 -> StronglySorted R l2 -> StronglySorted R l1.
Proof.
  intros [k ->]. induction l1 as [|a l1 IH]; simpl; intros H.
  - constructor.
  - inversion H; subst. constructor.
    + now apply IH.
    + rewrite Forall_app in H3. tauto.
Qed.

(** An initial segment of [a ++ b] that holds an element not in [a] is
    [a] followed by an initial segment of [b]. *)
Lemma prefix_split {A} (a b l : list A) (x : A) :
  prefix l (a ++ b) -> In x l -> ~ In x a ->
  exists k, l = (a ++ k)%list /\ prefix k b.
Proof.
  intros Hpre Hin Hn.
  destruct (prefix_reaches a b l x Hpre Hin Hn) as [k ->].
  exists k. split; [reflexivity|].
  destruct Hpre as [k' Hk]. rewrite <- app_assoc in Hk.
  apply app_inv_head in Hk. now exists k'.
Qed.

Lemma prefix_flat_map {A B} (f : A -> list B) (l1 l2 : list A) :
  prefix l1 l2 -> prefix (flat_map f l1) (flat_map f l2).
Proof. intros [k ->]. exists (flat_map f k). apply flat_map_app. Qed.

Lemma calls_app (t1 t2 : list event) :
  calls (t1 ++ t2) = (calls t1 ++ calls t2)%list.
Proof. apply flat_map_app. Qed.

Lemma prefix_of_nil {A} (l : list A) : prefix l [] -> l = [].
Proof. intros [k H]. now destruct l. Qed.

(** Two initial segments of one list: one is an initial segment of the
    other. *)
Lemma prefix_comparable {A} (l : list A) : forall a b,
  prefix a l -> prefix b l -> prefix a b \/ prefix b a.
Proof.
  induction l as [|x l IH]; intros a b Ha Hb.
  - apply prefix_of_nil in Ha. subst. left. apply prefix_nil.
  - destruct a as [|y a]; [left; apply prefix_nil|].
    destruct b as [|z b]; [right; apply prefix_nil|].
    destruct Ha as [ka Ha]. destruct Hb as [kb Hb].
    simpl in Ha, Hb. inversion Ha as [[Hy Hla]]. inversion Hb as [[Hz Hlb]].
    subst y z.
    destruct (IH a b (ex_intro _ ka Hla) (ex_intro _ kb Hlb)) as [H|H].
    + left. now apply prefix_cons.
    + right. now apply prefix_cons.
Qed.

(** In a list whose only element satisfying [f] is the first one, an
    initial segment that ends in an element satisfying [f] is that first
    element alone. *)
Lemma only_first {A} (f : A -> bool) (x : A) (rest : list A) :
  (forall y, In y rest -> f y = false) ->
  forall front c,
    prefix (front ++ [c]) (x :: rest) -> f c = true -> front = [].
Proof.
  intros Hr front c [k Hk] Hc.
  destruct front as [|z front]; [reflexivity|].
  simpl in Hk. inversion Hk as [[Hz Hrest]].
  rewrite (Hr c) in Hc; [discriminate|].
  rewrite Hrest. apply in_or_app. left. apply in_or_app. right. now left.
Qed.

(** In a list whose only element satisfying [f] is the last one, nothing
    follows an element that satisfies [f]. *)
Lemma only_last {A} (f : A -> bool) (body : list A) (x : A) :
  (forall y, In y body -> f y = false) ->
  forall front c back,
    (body ++ [x])%list = (front ++ c :: back)%list -> f c = true -> back = [].
Proof.
  induction body as [|y body IH]; intros Hb front c back H Hc.
  - destruct front as [|z front]; simpl in H.
    + now inversion H.
    + inversion H. now destruct front.
  - destruct front as [|z front]; simpl in H; inversion H; subst.
    + rewrite (Hb c) in Hc; [discriminate|now left].
    + eapply IH; [|eassumption|exact Hc].
      intros y0 Hy. apply Hb. now right.
Qed.

(** ** Calling the library on a list of calls *)

Section Exec.

Context {W : Type}.
Variable lib : ql.library W.

Lemma exec_prefix cs : forall w w' t r,
  exec lib cs w = (w', t, r) -> prefix (calls t) cs.
Proof.
  induction cs as [|c cs IH]; simpl; intros w w' t r H.
  - inversion H. apply prefix_nil.
  - destruct (lib c w) as [[w1 outs] [e|v]].
    + inversion H. simpl. apply prefix_cons, prefix_nil.
    + destruct (exec lib cs w1) as [[w2 t2] r2] eqn:E.
      inversion H. simpl. apply prefix_cons. eapply IH, E.
Qed.

Lemma exec_all cs : forall w w' t,
  exec lib cs w = (w', t, None) -> calls t = cs.
Proof.
  induction cs as [|c cs IH]; simpl; intros w w' t H.
  - now inversion H.
  - destruct (lib c w) as [[w1 outs] [e|v]]; [discriminate|].
    destruct (exec lib cs w1) as [[w2 t2] r2] eqn:E.
    inversion H; subst. simpl. f_equal. eapply IH, E.
Qed.

Lemma exec_quiet cs : forall w w' t,
  exec lib cs w = (w', t, None) -> no_call_raised t.
Proof.
  induction cs as [|c cs IH]; simpl; intros w w' t H e (c0 & o0 & Hin).
  - inversion H; subst. contradiction.
  - destruct (lib c w) as [[w1 outs] [e1|v]]; [discriminate|].
    destruct (exec lib cs w1) as [[w2 t2] r2] eqn:E.
    inversion H; subst. destruct Hin as [Hin|Hin]; [discriminate|].
    apply (IH _ _ _ E e). now exists c0, o0.
Qed.

(** When a call raises, it is the last event, and it carries the
    exception that comes out. *)
Lemma exec_raised cs : forall w w' t e,
  exec lib cs w = (w', t, Some e) ->
  exists t0 c outs,
    t = (t0 ++ [Called c outs (inl e)])%list /\ no_call_raised t0.
Proof.
  induction cs as [|c cs IH]; simpl; intros w w' t e H.
  - discriminate.
  - destruct (lib c w) as [[w1 outs] [e1|v]].
    + inversion H; subst. exists [], c, outs. split; [reflexivity|].
      intros e0 (c0 & o0 & []).
    + destruct (exec lib cs w1) as [[w2 t2] r2] eqn:E.
      inversion H; subst.
      destruct (IH _ _ _ _ E) as (t0 & c1 & o1 & -> & Hq).
      exists (Called c outs (inr v) :: t0), c1, o1. split; [reflexivity|].
      intros e0 (c0 & o0 & [Hin|Hin]); [discriminate|].
      apply (Hq e0). now exists c0, o0.
Qed.

Lemma exec_printed cs : forall w w' t r,
  exec lib cs w = (w', t, r) -> printed t = [].
Proof.
  induction cs as [|c cs IH]; simpl; intros w w' t r H.
  - now inversion H.
  - destruct (lib c w) as [[w1 outs] [e|v]].
    + now inversion H.
    + destruct (exec lib cs w1) as [[w2 t2] r2] eqn:E.
      inversion H; subst. simpl. eapply IH, E.
Qed.

(** After a list of calls that ends in [c] has gone through, the last
    event is [c] returning. *)
Lemma exec_last cs c : forall w w' t,
  exec lib (cs ++ [c]) w = (w', t, None) ->
  exists t0 outs v, t = (t0 ++ [Called c outs (inr v)])%list.
Proof.
  induction cs as [|c0 cs IH]; simpl; intros w w' t H.
  - destruct (lib c w) as [[w1 outs] [e|v]]; [discriminate|].
    inversion H; subst. now exists [], outs, v.
  - destruct (lib c0 w) as [[w1 outs0] [e0|v0]]; [discriminate|].
    destruct (exec lib (cs ++ [c]) w1) as [[w2 t2] r2] eqn:E.
    inversion H; subst.
    destruct (IH _ _ _ E) as (t0 & outs & v & ->).
    now exists (Called c0 outs0 (inr v0) :: t0), outs, v.
Qed.

End Exec.

(** ** The script against its plan *)

Ltac library_call :=
  match goal with
  | |- context [openql ?p ?c ?w] =>
      destruct (openql p c w) as [[? ?] [?|?]]; simpl
  end.

Section RunPlan.

Context {W : Type}.
Variable dirname : string -> exn + string.
Variable join : string -> string -> exn + string.

(** The run of the script is the library driven through the planned
    calls: same events, same final world, same outcome; the script adds
    nothing of its own and three objects exist after a complete run. *)
Lemma run_plan (p : process W) cs pe w t r :
  plan dirname join (__file__ p) = (cs, pe) ->
  exec (openql p) cs (world p) = (w, t, r) ->
  trace (run dirname join p) = t
  /\ st_world (fst (run dirname join p)) = w
  /\ outcome (run dirname join p) = finish_with r pe
  /\ (succeeded (run dirname join p) ->
      st_next (fst (run dirname join p)) = 3%nat).
Proof.
  unfold plan, run, example, trace, outcome, succeeded, outcome, bind,
    get_file, lift, initial.
  destruct (dirname (__file__ p)) as [e|curdir].
  { intros H1 H2. inversion H1; subst. simpl in H2. inversion H2; subst.
    simpl. repeat split; congruence. }
  destruct (join curdir "output") as [e|output_dir].
  { intros H1 H2. inversion H1; subst. simpl in H2. inversion H2; subst.
    simpl. repeat split; congruence. }
  destruct (join curdir "hardware_config_crossbar.json") as [e|config];
    intros H1 H2; inversion H1; subst; clear H1;
    unfold script_calls, options, constructions, gates, finish,
      num_qubits, num_creg, call, new, ret in *;
    simpl in *;
    repeat (library_call; simpl in H2;
            try (inversion H2; subst; simpl;
                 repeat split; (reflexivity || congruence))).
Qed.

End RunPlan.

Section RunFacts.

Context {W : Type}.
Variable dirname : string -> exn + string.
Variable join : string -> string -> exn + string.

Lemma plan_complete file cs :
  plan dirname join file = (cs, None) ->
  exists curdir output_dir config,
    dirname file = inr curdir
    /\ join curdir "output" = inr output_dir
    /\ join curdir "hardware_config_crossbar.json" = inr config
    /\ cs = script_calls output_dir config.
Proof.
  unfold plan.
  destruct (dirname file) as [e|curdir] eqn:E1; [discriminate|].
  destruct (join curdir "output") as [e|output_dir] eqn:E2; [discriminate|].
  destruct (join curdir "hardware_config_crossbar.json") as [e|config] eqn:E3;
    [discriminate|].
  intros H. inversion H; subst.
  exists curdir, output_dir, config. repeat split; assumption.
Qed.

Lemma plan_cut file cs e :
  plan dirname join file = (cs, Some e) -> path_raises dirname join file e.
Proof.
  unfold plan, path_raises.
  destruct (dirname file) as [e0|curdir] eqn:E1.
  { intros H. inversion H; subst. now left. }
  intros H. right. exists curdir. split; [reflexivity|].
  destruct (join curdir "output") as [e0|output_dir] eqn:E2.
  { inversion H; subst. now left. }
  destruct (join curdir "hardware_config_crossbar.json") as [e0|config] eqn:E3;
    inversion H; subst. now right.
Qed.

Lemma path_raises_cut file e :
  path_raises dirname join file e ->
  exists cs e', plan dirname join file = (cs, Some e').
Proof.
  unfold plan, path_raises. intros [H|(curdir & H & [H1|H1])].
  - rewrite H. eauto.
  - rewrite H, H1. eauto.
  - rewrite H. destruct (join curdir "output"); [eauto|].
    rewrite H1. eauto.
Qed.

Lemma plan_prefix file :
  exists output_dir config,
    prefix (fst (plan dirname join file)) (script_calls output_dir config).
Proof.
  unfold plan.
  destruct (dirname file) as [e|curdir].
  { exists "", "". apply prefix_nil. }
  destruct (join curdir "output") as [e|output_dir].
  { exists "", "". apply prefix_nil. }
  destruct (join curdir "hardware_config_crossbar.json") as [e|config];
    simpl.
  - exists output_dir, "". now eexists.
  - exists output_dir, config. apply prefix_refl.
Qed.

(** A complete run is the library driven through the whole script. *)
Lemma run_succeeded (p : process W) :
  succeeded (run dirname join p) ->
  exists curdir output_dir config,
    dirname (__file__ p) = inr curdir
    /\ join curdir "output" = inr output_dir
    /\ join curdir "hardware_config_crossbar.json" = inr config
    /\ exec (openql p) (script_calls output_dir config) (world p)
       = (st_world (fst (run dirname join p)),
          trace (run dirname join p), None)
    /\ calls (trace (run dirname join p)) = script_calls output_dir config
    /\ st_next (fst (run dirname join p)) = 3%nat.
Proof.
  intros Hs.
  destruct (plan dirname join (__file__ p)) as [cs pe] eqn:Hp.
  destruct (exec (openql p) cs (world p)) as [[w t] r] eqn:He.
  destruct (run_plan dirname join p _ _ _ _ _ Hp He) as (Ht & Hw & Ho & Hn).
  unfold succeeded in Hs. rewrite Ho in Hs.
  destruct r as [e|]; [discriminate|].
  destruct pe as [e|]; [discriminate|].
  destruct (plan_complete _ _ Hp) as (curdir & output_dir & config & H1 & H2 & H3 & ->).
  exists curdir, output_dir, config.
  rewrite Ht, Hw, He. repeat split; auto.
  eapply exec_all, He.
Qed.

(** In a complete run no call raised. *)
Lemma run_succeeded_quiet (p : process W) :
  succeeded (run dirname join p) ->
  no_call_raised (trace (run dirname join p)).
Proof.
  intros Hs.
  destruct (run_succeeded p Hs) as (curdir & out & cfg & _ & _ & _ & He & _).
  eapply exec_quiet, He.
Qed.

(** Whatever happens, the calls made are an initial segment of the
    script's sequence and the script prints nothing. *)
Lemma run_any (p : process W) :
  (exists output_dir config,
     prefix (calls (trace (run dirname join p)))
            (script_calls output_dir config))
  /\ printed (trace (run dirname join p)) = [].
Proof.
  destruct (plan dirname join (__file__ p)) as [cs pe] eqn:Hp.
  destruct (exec (openql p) cs (world p)) as [[w t] r] eqn:He.
  destruct (run_plan dirname join p _ _ _ _ _ Hp He) as (Ht & _).
  rewrite Ht. split; [|eapply exec_printed, He].
  destruct (plan_prefix (__file__ p)) as (output_dir & config & Hpre).
  rewrite Hp in Hpre. exists output_dir, config.
  eapply prefix_trans; [eapply exec_prefix, He|exact Hpre].
Qed.

(** If no call raised, every planned call was made. *)
Lemma run_quiet (p : process W) :
  no_call_raised (trace (run dirname join p)) ->
  calls (trace (run dirname join p)) = fst (plan dirname join (__file__ p)).
Proof.
  intros Hq.
  destruct (plan dirname join (__file__ p)) as [cs pe] eqn:Hp.
  destruct (exec (openql p) cs (world p)) as [[w t] r] eqn:He.
  destruct (run_plan dirname join p _ _ _ _ _ Hp He) as (Ht & _).
  rewrite Ht in *. simpl. destruct r as [e|].
  - destruct (exec_raised _ _ _ _ _ _ He) as (t0 & c & outs & -> & _).
    exfalso. apply (Hq e). exists c, outs.
    apply in_or_app. right. now left.
  - eapply exec_all, He.
Qed.

(** The calls made are an initial segment of the planned ones. *)
Lemma run_calls_plan (p : process W) :
  prefix (calls (trace (run dirname join p)))
         (fst (plan dirname join (__file__ p))).
Proof.
  destruct (plan dirname join (__file__ p)) as [cs pe] eqn:Hp.
  destruct (exec (openql p) cs (world p)) as [[w t] r] eqn:He.
  destruct (run_plan dirname join p _ _ _ _ _ Hp He) as (Ht & _).
  rewrite Ht. eapply exec_prefix, He.
Qed.

(** A call other than [set_option] is only made when the three path
    computations went through. *)
Lemma run_reaches (p : process W) (c : ql.call) :
  In c (calls (trace (run dirname join p))) ->
  phase_of c <> Some SetOptions ->
  exists curdir output_dir config,
    dirname (__file__ p) = inr curdir
    /\ join curdir "output" = inr output_dir
    /\ join curdir "hardware_config_crossbar.json" = inr config
    /\ prefix (calls (trace (run dirname join p)))
              (script_calls output_dir config).
Proof.
  intros Hin Hc. pose proof (run_calls_plan p) as Hpre.
  unfold plan in Hpre.
  destruct (dirname (__file__ p)) as [e|curdir] eqn:E1.
  { apply prefix_of_nil in Hpre. rewrite Hpre in Hin. contradiction. }
  destruct (join curdir "output") as [e|output_dir] eqn:E2.
  { apply prefix_of_nil in Hpre. rewrite Hpre in Hin. contradiction. }
  destruct (join curdir "hardware_config_crossbar.json") as [e|config] eqn:E3.
  { simpl in Hpre. apply (prefix_In _ _ _ Hpre) in Hin. simpl in Hin.
    exfalso. apply Hc.
    repeat (destruct Hin as [<-|Hin]; [reflexivity|]). contradiction. }
  exists curdir, output_dir, config. repeat split; assumption.
Qed.

(** When the configuration path cannot be computed, no object is created. *)
Lemma run_no_config (p : process W) curdir output_dir e :
  dirname (__file__ p) = inr curdir ->
  join curdir "output" = inr output_dir ->
  join curdir "hardware_config_crossbar.json" = inl e ->
  st_next (fst (run dirname join p)) = 0%nat.
Proof.
  intros H1 H2 H3.
  unfold run, example, bind, get_file, lift, initial, call.
  rewrite H1, H2. simpl.
  repeat (library_call; try reflexivity).
  rewrite H3. reflexivity.
Qed.

End RunFacts.

(** ** The script on the sample host *)

Example quiet_run :
  succeeded (run posix.dirname posix.join Sample.quiet_process)
  /\ calls (trace (run posix.dirname posix.join Sample.quiet_process))
     = script_calls "/home/user/OpenQL/src/ql/arch/crossbar/output"
         "/home/user/OpenQL/src/ql/arch/crossbar/hardware_config_crossbar.json".
Proof. split; reflexivity. Qed.

(** The library that checks gate names stops the script at its first gate. *)
Example strict_run :
  outcome (run posix.dirname posix.join Sample.strict_process)
  = inl (Sample.unknown_gate "pepez")
  /\ gate_invocations
       (calls (trace (run posix.dirname posix.join Sample.strict_process)))
     = [(Obj 2, "pepez", [0])].
Proof. split; reflexivity. Qed.

(** ** The gates *)

(** C1.  A run that reaches the end of the script has appended exactly six
    gates to the kernel it constructed, each once and in the order pepez [0],
    prepz [1], x [0], cnot [0, 1], shuttle_up [1], measure [1]; the first
    name is the literal pepez, which is not prepz, and the names used are
    exactly these six. *)
Theorem gates_appended {W} dirname join (p : process W) :
  succeeded (run dirname join p) ->
  let cs := calls (trace (run dirname join p)) in
  exists platform kernel,
    In (ql.Kernel "test" platform 2 0 kernel) cs
    /\ gate_invocations cs
       = [ (kernel, "pepez", [0]); (kernel, "prepz", [1]);
           (kernel, "x", [0]); (kernel, "cnot", [0; 1]);
           (kernel, "shuttle_up", [1]); (kernel, "measure", [1]) ]
    /\ List.length (gate_invocations cs) = 6%nat
    /\ NoDup (gate_invocations cs)
    /\ hd_error (gate_names cs) = Some "pepez"
    /\ "pepez" <> "prepz"
    /\ (forall name,
          In name (gate_names cs)
          <-> In name ["pepez"; "prepz"; "x"; "cnot"; "shuttle_up"; "measure"]).
Proof.
  intros Hs cs.
  destruct (run_succeeded dirname join p Hs)
    as (curdir & output_dir & config & _ & _ & _ & _ & Hc & _).
  subst cs. rewrite Hc. exists (Obj 0), (Obj 2).
  split; [simpl; tauto|].
  split; [reflexivity|].
  split; [reflexivity|].
  split.
  { simpl. repeat constructor; simpl; intuition discriminate. }
  split; [reflexivity|].
  split; [discriminate|].
  intros name. reflexivity.
Qed.

Lemma gates_appended_witness :
  let cs := calls (trace (run posix.dirname posix.join Sample.quiet_process)) in
  exists platform kernel,
    In (ql.Kernel "test" platform 2 0 kernel) cs
    /\ gate_invocations cs
       = [ (kernel, "pepez", [0]); (kernel, "prepz", [1]);
           (kernel, "x", [0]); (kernel, "cnot", [0; 1]);
           (kernel, "shuttle_up", [1]); (kernel, "measure", [1]) ]
    /\ List.length (gate_invocations cs) = 6%nat
    /\ NoDup (gate_invocations cs)
    /\ hd_error (gate_names cs) = Some "pepez"
    /\ "pepez" <> "prepz"
    /\ (forall name,
          In name (gate_names cs)
          <-> In name ["pepez"; "prepz"; "x"; "cnot"; "shuttle_up"; "measure"]).
Proof.
  apply (gates_appended posix.dirname posix.join Sample.quiet_process).
  reflexivity.
Defined.

(** ** The options *)

(** C3.  Only the keys output_dir, optimize, scheduler and log_level are
    ever set; a run that reaches the end has called set_option exactly four
    times, in this order, with output_dir set to the join of the script's
    directory and output, optimize to no, scheduler to ASAP and log_level to
    LOG_DEBUG. *)
Theorem options_set {W} dirname join (p : process W) :
  let cs := calls (trace (run dirname join p)) in
  (forall k v,
     In (ql.set_option k v) cs ->
     In k ["output_dir"; "optimize"; "scheduler"; "log_level"])
  /\ (succeeded (run dirname join p) ->
      exists curdir output_dir,
        dirname (__file__ p) = inr curdir
        /\ join curdir "output" = inr output_dir
        /\ option_settings cs
           = [ ("output_dir", output_dir); ("optimize", "no");
               ("scheduler", "ASAP"); ("log_level", "LOG_DEBUG") ]
        /\ List.length (option_settings cs) = 4%nat).
Proof.
  intros cs. split.
  - intros k v Hin.
    destruct (run_any dirname join p) as ((output_dir & config & Hpre) & _).
    apply (prefix_In _ _ _ Hpre) in Hin. simpl in Hin.
    repeat (destruct Hin as [Hin|Hin];
            [try discriminate; inversion Hin; simpl; tauto|]).
    contradiction.
  - intros Hs.
    destruct (run_succeeded dirname join p Hs)
      as (curdir & output_dir & config & H1 & H2 & _ & _ & Hc & _).
    exists curdir, output_dir. subst cs. rewrite Hc.
    repeat split; assumption || reflexivity.
Qed.

Lemma options_set_witness :
  exists curdir output_dir,
    posix.dirname Sample.script_path = inr curdir
    /\ posix.join curdir "output" = inr output_dir
    /\ option_settings
         (calls (trace (run posix.dirname posix.join Sample.quiet_process)))
       = [ ("output_dir", output_dir); ("optimize", "no");
           ("scheduler", "ASAP"); ("log_level", "LOG_DEBUG") ]
    /\ List.length
         (option_settings
            (calls (trace (run posix.dirname posix.join Sample.quiet_process))))
       = 4%nat.
Proof.
  apply (options_set posix.dirname posix.join Sample.quiet_process).
  reflexivity.
Defined.

(** ** The circuit *)

(** C4.  Whenever a Program or a Kernel is constructed it is with
    num_qubits 2, every qubit index of every gate call lies in {0, 1}, that
    is, below num_qubits, and a run that reaches the end has constructed
    both the Program and the Kernel. *)
Theorem two_qubit_circuit {W} dirname join (p : process W) :
  let cs := calls (trace (run dirname join p)) in
  num_qubits = 2
  /\ (forall name platform nq nc self,
        In (ql.Program name platform nq nc self) cs -> nq = num_qubits)
  /\ (forall name platform nq nc self,
        In (ql.Kernel name platform nq nc self) cs -> nq = num_qubits)
  /\ (forall kernel name qubits q,
        In (ql.gate kernel name qubits) cs -> In q qubits ->
        (q = 0 \/ q = 1) /\ 0 <= q < num_qubits)
  /\ (succeeded (run dirname join p) ->
      exists platform program kernel,
        In (ql.Program "crossbar_test" platform 2 0 program) cs
        /\ In (ql.Kernel "test" platform 2 0 kernel) cs).
Proof.
  intros cs.
  destruct (run_any dirname join p) as ((output_dir & config & Hpre) & _).
  fold cs in Hpre.
  split; [reflexivity|].
  split; [|split; [|split]].
  - intros name platform nq nc self Hin.
    apply (prefix_In _ _ _ Hpre) in Hin. simpl in Hin.
    repeat (destruct Hin as [Hin|Hin];
            [try discriminate; inversion Hin; reflexivity|]).
    contradiction.
  - intros name platform nq nc self Hin.
    apply (prefix_In _ _ _ Hpre) in Hin. simpl in Hin.
    repeat (destruct Hin as [Hin|Hin];
            [try discriminate; inversion Hin; reflexivity|]).
    contradiction.
  - intros kernel name qubits q Hin Hq.
    apply (prefix_In _ _ _ Hpre) in Hin. simpl in Hin.
    unfold num_qubits.
    repeat (destruct Hin as [Hin|Hin];
            [try discriminate; inversion Hin; subst; simpl in Hq;
             intuition lia|]).
    contradiction.
  - intros Hs.
    destruct (run_succeeded dirname join p Hs)
      as (curdir & out & cfg & _ & _ & _ & _ & Hc & _).
    subst cs. rewrite Hc. exists (Obj 0), (Obj 1), (Obj 2).
    simpl. tauto.
Qed.

Lemma two_qubit_circuit_witness :
  exists platform program kernel,
    In (ql.Program "crossbar_test" platform 2 0 program)
       (calls (trace (run posix.dirname posix.join Sample.quiet_process)))
    /\ In (ql.Kernel "test" platform 2 0 kernel)
          (calls (trace (run posix.dirname posix.join Sample.quiet_process))).
Proof.
  apply (two_qubit_circuit posix.dirname posix.join Sample.quiet_process).
  reflexivity.
Defined.

(** ** The objects *)

(** C6.  A run that reaches the end has constructed exactly three library
    objects, a Platform, a Program and a Kernel, in this order and pairwise
    distinct; the Platform is constructed with the name crossbar and with
    the join of the script's directory and hardware_config_crossbar.json as
    its configuration file. *)
Theorem three_objects {W} dirname join (p : process W) :
  succeeded (run dirname join p) ->
  exists curdir config platform program kernel,
    dirname (__file__ p) = inr curdir
    /\ join curdir "hardware_config_crossbar.json" = inr config
    /\ filter is_constructor (calls (trace (run dirname join p)))
       = [ ql.Platform "crossbar" config platform;
           ql.Program "crossbar_test" platform 2 0 program;
           ql.Kernel "test" platform 2 0 kernel ]
    /\ NoDup [platform; program; kernel]
    /\ st_next (fst (run dirname join p)) = 3%nat.
Proof.
  intros Hs.
  destruct (run_succeeded dirname join p Hs)
    as (curdir & out & cfg & H1 & _ & H3 & _ & Hc & Hn).
  exists curdir, cfg, (Obj 0), (Obj 1), (Obj 2). rewrite Hc.
  repeat split; try assumption.
  repeat constructor; simpl; intuition discriminate.
Qed.

Lemma three_objects_witness :
  exists curdir config platform program kernel,
    posix.dirname Sample.script_path = inr curdir
    /\ posix.join curdir "hardware_config_crossbar.json" = inr config
    /\ filter is_constructor
         (calls (trace (run posix.dirname posix.join Sample.quiet_process)))
       = [ ql.Platform "crossbar" config platform;
           ql.Program "crossbar_test" platform 2 0 program;
           ql.Kernel "test" platform 2 0 kernel ]
    /\ NoDup [platform; program; kernel]
    /\ st_next (fst (run posix.dirname posix.join Sample.quiet_process))
       = 3%nat.
Proof.
  apply (three_objects posix.dirname posix.join Sample.quiet_process).
  reflexivity.
Defined.

(** C8.  Whenever the script has constructed both the Program and the
    Kernel, the two were given the same platform object, the one the
    Platform call constructed, and the same numbers: num_qubits 2 and
    num_creg 0, so the program has no classical registers. *)
Theorem program_and_kernel_agree {W} dirname join (p : process W)
    name1 platform1 nq1 nc1 program name2 platform2 nq2 nc2 kernel :
  In (ql.Program name1 platform1 nq1 nc1 program)
     (calls (trace (run dirname join p))) ->
  In (ql.Kernel name2 platform2 nq2 nc2 kernel)
     (calls (trace (run dirname join p))) ->
  platform1 = platform2
  /\ (exists config,
        In (ql.Platform "crossbar" config platform1)
           (calls (trace (run dirname join p))))
  /\ nq1 = num_qubits /\ nq2 = num_qubits /\ num_qubits = 2
  /\ nc1 = num_creg /\ nc2 = num_creg /\ num_creg = 0.
Proof.
  intros Hp Hk.
  destruct (run_any dirname join p) as ((output_dir & config & [k Hpre]) & _).
  assert (Hp' := Hp). assert (Hk' := Hk).
  apply (prefix_In _ _ _ (ex_intro _ k Hpre)) in Hp'.
  apply (prefix_In _ _ _ (ex_intro _ k Hpre)) in Hk'.
  simpl in Hp', Hk'.
  assert (Ep : ql.Program name1 platform1 nq1 nc1 program
               = ql.Program "crossbar_test" (Obj 0) 2 0 (Obj 1)).
  { repeat (destruct Hp' as [Hp'|Hp']; [try discriminate; now inversion Hp'|]).
    contradiction. }
  assert (Ek : ql.Kernel name2 platform2 nq2 nc2 kernel
               = ql.Kernel "test" (Obj 0) 2 0 (Obj 2)).
  { repeat (destruct Hk' as [Hk'|Hk']; [try discriminate; now inversion Hk'|]).
    contradiction. }
  inversion Ep; inversion Ek; subst.
  repeat split; try reflexivity.
  exists config.
  (* the Platform call comes before the Program call in the script, so it is
     in every initial segment that holds the Program call *)
  apply (prefix_In (options output_dir ++ [ql.Platform "crossbar" config (Obj 0)])).
  - apply (prefix_reaches _
             ([ ql.Program "crossbar_test" (Obj 0) 2 0 (Obj 1);
                ql.Kernel "test" (Obj 0) 2 0 (Obj 2) ]
                ++ gates (Obj 2) ++ finish (Obj 1) (Obj 2))
             _ (ql.Program "crossbar_test" (Obj 0) 2 0 (Obj 1))).
    + exists k. exact Hpre.
    + exact Hp.
    + simpl. intros [H|[H|[H|[H|[H|[]]]]]]; discriminate H.
  - apply in_or_app. right. now left.
Qed.

Lemma program_and_kernel_agree_witness :
  Obj 0 = Obj 0
  /\ (exists config,
        In (ql.Platform "crossbar" config (Obj 0))
           (calls (trace (run posix.dirname posix.join Sample.quiet_process))))
  /\ 2 = num_qubits /\ 2 = num_qubits /\ num_qubits = 2
  /\ 0 = num_creg /\ 0 = num_creg /\ num_creg = 0.
Proof.
  apply (program_and_kernel_agree posix.dirname posix.join
           Sample.quiet_process "crossbar_test" (Obj 0) 2 0 (Obj 1)
           "test" (Obj 0) 2 0 (Obj 2)); vm_compute; tauto.
Defined.

(** ** The order of the calls *)

Lemma script_calls_sorted output_dir config :
  StronglySorted phase_le (script_calls output_dir config).
Proof.
  unfold script_calls, options, constructions, gates, finish. simpl.
  repeat (apply SSorted_cons;
          [|repeat (apply Forall_cons; [unfold phase_le; vm_compute; lia|]);
            apply Forall_nil]).
  apply SSorted_nil.
Qed.

(** C2.  In every run the library calls come in four phases, none of a
    later phase before one of an earlier phase: set_option calls, then the
    three constructions, then the gate calls, then add_kernel and compile.
    compile is called at most once and nothing is called after it; a run
    that reaches the end has made exactly the calls of the four phases,
    add_kernel followed by compile at the end, compile exactly once and
    last. *)
Theorem four_phases {W} dirname join (p : process W) :
  let cs := calls (trace (run dirname join p)) in
  StronglySorted phase_le cs
  /\ (forall c, In c cs -> phase_of c <> None)
  /\ (List.length (filter is_compile cs) <= 1)%nat
  /\ (forall front c back,
        cs = (front ++ c :: back)%list -> is_compile c = true -> back = [])
  /\ (succeeded (run dirname join p) ->
      exists output_dir config platform program kernel,
        cs = (options output_dir
              ++ constructions config platform program kernel
              ++ gates kernel
              ++ [ql.add_kernel program kernel; ql.compile program])%list
        /\ List.length (filter is_compile cs) = 1%nat
        /\ last cs (ql.qasm program) = ql.compile program).
Proof.
  intros cs.
  destruct (run_any dirname join p) as ((output_dir & config & Hpre) & _).
  fold cs in Hpre.
  split; [|split; [|split; [|split]]].
  - eapply prefix_sorted; [exact Hpre|apply script_calls_sorted].
  - intros c Hin. apply (prefix_In _ _ _ Hpre) in Hin. simpl in Hin.
    repeat (destruct Hin as [<-|Hin]; [discriminate|]). contradiction.
  - apply (prefix_filter is_compile) in Hpre.
    apply prefix_length in Hpre. exact Hpre.
  - intros front c back Hcs Hc. destruct Hpre as [k Hk].
    rewrite Hcs, <- app_assoc in Hk. simpl in Hk.
    assert (Hnil : (back ++ k)%list = []).
    { eapply (only_last is_compile
                (options output_dir
                   ++ constructions config (Obj 0) (Obj 1) (Obj 2)
                   ++ gates (Obj 2) ++ [ql.add_kernel (Obj 1) (Obj 2)])
                (ql.compile (Obj 1))); [|exact Hk|exact Hc].
      simpl. intros y Hy.
      repeat (destruct Hy as [<-|Hy]; [reflexivity|]). contradiction. }
    now destruct back.
  - intros Hs.
    destruct (run_succeeded dirname join p Hs)
      as (curdir & out & cfg & _ & _ & _ & _ & Hc & _).
    exists out, cfg, (Obj 0), (Obj 1), (Obj 2).
    subst cs. rewrite Hc. repeat split; reflexivity.
Qed.

Lemma four_phases_witness :
  let cs := calls (trace (run posix.dirname posix.join Sample.quiet_process)) in
  exists output_dir config platform program kernel,
    cs = (options output_dir
          ++ constructions config platform program kernel
          ++ gates kernel
          ++ [ql.add_kernel program kernel; ql.compile program])%list
    /\ List.length (filter is_compile cs) = 1%nat
    /\ last cs (ql.qasm program) = ql.compile program.
Proof.
  apply (four_phases posix.dirname posix.join Sample.quiet_process).
  reflexivity.
Defined.

(** ** Failure *)

(** The body of the script handles no error.  Once the imports have
    returned and [__file__] is defined, it fails exactly when a library
    call it made raised or one of its path computations raises; the
    exception that comes out is the one raised by the last call made, or by
    a path computation when no call raised; and whatever the library
    answers, the calls made are an initial segment of the fixed sequence of
    the script, so no argument is checked or changed on the way. *)
Theorem no_error_handling {W} dirname join (p : process W) :
  ((exists e, outcome (run dirname join p) = inl e)
   <-> (exists e, call_raised (trace (run dirname join p)) e
                  \/ path_raises dirname join (__file__ p) e))
  /\ (forall e,
        outcome (run dirname join p) = inl e ->
        (exists t0 c outs,
           trace (run dirname join p) = (t0 ++ [Called c outs (inl e)])%list
           /\ no_call_raised t0)
        \/ (no_call_raised (trace (run dirname join p))
            /\ path_raises dirname join (__file__ p) e))
  /\ (outcome (run dirname join p) = inr tt
      \/ exists e, outcome (run dirname join p) = inl e)
  /\ (exists output_dir config,
        prefix (calls (trace (run dirname join p)))
               (script_calls output_dir config)).
Proof.
  destruct (plan dirname join (__file__ p)) as [cs pe] eqn:Hp.
  destruct (exec (openql p) cs (world p)) as [[w t] r] eqn:He.
  destruct (run_plan dirname join p _ _ _ _ _ Hp He) as (Ht & _ & Ho & _).
  rewrite Ht, Ho.
  split; [|split; [|split]].
  - split.
    + intros [e H]. destruct r as [e1|].
      * destruct (exec_raised _ _ _ _ _ _ He) as (t0 & c & outs & -> & _).
        exists e1. left. exists c, outs. apply in_or_app. right. now left.
      * destruct pe as [e1|]; [|discriminate].
        exists e1. right. eapply plan_cut, Hp.
    + intros [e [H|H]].
      * destruct r as [e1|]; [now exists e1|].
        exfalso. exact (exec_quiet _ _ _ _ _ He e H).
      * destruct (path_raises_cut _ _ _ _ H) as (cs' & e' & Hp').
        rewrite Hp in Hp'. inversion Hp'; subst.
        destruct r as [e1|]; [now exists e1|now exists e'].
  - intros e H. destruct r as [e1|].
    + left. simpl in H. inversion H; subst.
      exact (exec_raised _ _ _ _ _ _ He).
    + right. split; [eapply exec_quiet, He|].
      destruct pe as [e1|]; [|discriminate].
      simpl in H. inversion H; subst. eapply plan_cut, Hp.
  - destruct r as [e1|]; [right; now exists e1|].
    destruct pe as [e1|]; [right; now exists e1|now left].
  - rewrite <- Ht. apply run_any.
Qed.

(** On a host where both imports return and [__file__] is defined, the file
    is its body. *)
Lemma main_run {W} (h : host W) os ql file :
  import_os h = inr os ->
  import_openql h = inr ql ->
  file_global h = Some file ->
  main h
  = run (os_path_dirname os) (os_path_join os)
        {| __file__ := file; cwd := host_cwd h;
           openql := ql; world := host_world h |}.
Proof. intros H1 H2 H3. unfold main. now rewrite H1, H2, H3. Qed.

Example quiet_host_run :
  main Sample.quiet_host = run posix.dirname posix.join Sample.quiet_process.
Proof. reflexivity. Qed.

(** C5 as stated does not hold: on a host without the openql module the
    script fails at its second line, with [ModuleNotFoundError], although
    no library call was made and no path computation raises. *)
Lemma missing_library_fails_the_script :
  outcome (main Sample.bare_host) = inl Sample.no_openql
  /\ ~ fails_only_by_calls_or_paths Sample.bare_host.
Proof.
  split; [reflexivity|].
  intros [H _].
  destruct H as [e [(c & outs & Hin)|(os & Hos & Hp)]].
  - now exists Sample.no_openql.
  - exact Hin.
  - simpl in Hos. inversion Hos; subst os. simpl in Hp.
    destruct Hp as [Hp|(curdir & Hd & [Hp|Hp])]; discriminate Hp.
Qed.

(** C5, amended.  The script handles no error.  It fails exactly when one
    of its two imports raises, a library call it made raised, or one of its
    path computations raises (the lookup of [__file__] included); the
    exception that comes out is the one of the import, of the last call
    made, or of the path computation, unchanged; and whatever the library
    answers, the calls made are an initial segment of the fixed sequence of
    the script, so no argument is checked or changed on the way. *)
Theorem script_fails_iff {W} (h : host W) :
  ((exists e, outcome (main h) = inl e)
   <-> (exists e, import_raises h e
                  \/ call_raised (trace (main h)) e
                  \/ path_computation_raises h e))
  /\ (forall e,
        outcome (main h) = inl e ->
        import_os h = inl e
        \/ ((exists os, import_os h = inr os) /\ import_openql h = inl e)
        \/ (exists t0 c outs,
              trace (main h) = (t0 ++ [Called c outs (inl e)])%list
              /\ no_call_raised t0)
        \/ (no_call_raised (trace (main h))
            /\ path_computation_raises h e))
  /\ (outcome (main h) = inr tt \/ exists e, outcome (main h) = inl e)
  /\ (exists output_dir config,
        prefix (calls (trace (main h))) (script_calls output_dir config)).
Proof.
  unfold import_raises, path_computation_raises, main.
  destruct (import_os h) as [e1|os] eqn:H1.
  { simpl. split; [|split; [|split]].
    - split; [intros _; exists e1; left; left; reflexivity
             |intros _; exists e1; reflexivity].
    - intros e He. inversion He; subst. now left.
    - right. now exists e1.
    - exists "", "". apply prefix_nil. }
  destruct (import_openql h) as [e2|ql] eqn:H2.
  { simpl. split; [|split; [|split]].
    - split; [intros _; exists e2; left; right; reflexivity
             |intros _; exists e2; reflexivity].
    - intros e He. inversion He; subst. right. left. split; [now exists os|reflexivity].
    - right. now exists e2.
    - exists "", "". apply prefix_nil. }
  destruct (file_global h) as [file|] eqn:H3.
  2:{ simpl. split; [|split; [|split]].
      - split; [|intros _; now exists (name_error "__file__")].
        intros _. exists (name_error "__file__"). right. right. now exists os.
      - intros e He. inversion He; subst. right. right. right.
        split; [intros e0 (c & outs & [])|now exists os].
      - right. now exists (name_error "__file__").
      - exists "", "". apply prefix_nil. }
  destruct (no_error_handling (os_path_dirname os) (os_path_join os)
              {| __file__ := file; cwd := host_cwd h;
                 openql := ql; world := host_world h |})
    as (Hiff & Hsame & Htot & Hpre).
  simpl in Hiff, Hsame.
  split; [|split; [|split]].
  - rewrite Hiff. split.
    + intros [e [H|H]]; exists e; [right; now left|].
      right. right. now exists os.
    + intros [e [[H|H]|[H|(os' & Hos & H)]]]; try discriminate H.
      * exists e. now left.
      * inversion Hos; subst os'. exists e. now right.
  - intros e He. destruct (Hsame e He) as [H|[Hq H]].
    + right. right. now left.
    + right. right. right. split; [exact Hq|now exists os].
  - exact Htot.
  - exact Hpre.
Qed.

(** ** Determinism *)

(** C7.  Two runs of the script with the same [__file__] in which no
    library call raises make the same library calls, with the same
    arguments, in the same order, whatever the two libraries answer and
    whatever the working directories are: the sequence is the one planned
    from [__file__] alone. *)
Theorem same_file_same_calls {W1 W2} dirname join
    (p1 : process W1) (p2 : process W2) :
  __file__ p1 = __file__ p2 ->
  no_call_raised (trace (run dirname join p1)) ->
  no_call_raised (trace (run dirname join p2)) ->
  calls (trace (run dirname join p1)) = calls (trace (run dirname join p2))
  /\ calls (trace (run dirname join p1))
     = fst (plan dirname join (__file__ p1)).
Proof.
  intros Hf H1 H2.
  rewrite (run_quiet dirname join p1 H1), (run_quiet dirname join p2 H2), Hf.
  split; reflexivity.
Qed.

Lemma quiet_run_no_raise :
  no_call_raised (trace (run posix.dirname posix.join Sample.quiet_process)).
Proof. apply run_succeeded_quiet. reflexivity. Qed.

Lemma logging_run_no_raise :
  no_call_raised (trace (run posix.dirname posix.join Sample.logging_process)).
Proof. apply run_succeeded_quiet. reflexivity. Qed.

Lemma same_file_same_calls_witness :
  cwd Sample.quiet_process <> cwd Sample.logging_process
  /\ calls (trace (run posix.dirname posix.join Sample.quiet_process))
     = calls (trace (run posix.dirname posix.join Sample.logging_process))
  /\ calls (trace (run posix.dirname posix.join Sample.quiet_process))
     = fst (plan posix.dirname posix.join (__file__ Sample.quiet_process)).
Proof.
  split; [discriminate|].
  apply (same_file_same_calls posix.dirname posix.join
           Sample.quiet_process Sample.logging_process).
  - reflexivity.
  - exact quiet_run_no_raise.
  - exact logging_run_no_raise.
Defined.

(** ** Paths *)

(** C10.  The two paths handed to the library, the value of the output_dir
    option and the configuration file of the platform, are the joins of
    [os.path.dirname(__file__)] with output and with
    hardware_config_crossbar.json; two complete runs with the same
    [__file__] hand over the same two paths, whatever their working
    directories. *)
Theorem paths_from_file {W1 W2} dirname join
    (p1 : process W1) (p2 : process W2) :
  __file__ p1 = __file__ p2 ->
  succeeded (run dirname join p1) ->
  succeeded (run dirname join p2) ->
  exists curdir output_dir config,
    dirname (__file__ p1) = inr curdir
    /\ join curdir "output" = inr output_dir
    /\ join curdir "hardware_config_crossbar.json" = inr config
    /\ paths_passed (calls (trace (run dirname join p1)))
       = [output_dir; config]
    /\ paths_passed (calls (trace (run dirname join p2)))
       = [output_dir; config].
Proof.
  intros Hf Hs1 Hs2.
  destruct (run_succeeded dirname join p1 Hs1)
    as (curdir & out & cfg & H1 & H2 & H3 & _ & Hc1 & _).
  destruct (run_succeeded dirname join p2 Hs2)
    as (curdir' & out' & cfg' & H1' & H2' & H3' & _ & Hc2 & _).
  rewrite <- Hf, H1 in H1'. inversion H1'; subst curdir'.
  rewrite H2 in H2'. inversion H2'; subst out'.
  rewrite H3 in H3'. inversion H3'; subst cfg'.
  exists curdir, out, cfg. rewrite Hc1, Hc2.
  repeat split; assumption || reflexivity.
Qed.

Lemma paths_from_file_witness :
  cwd Sample.quiet_process <> cwd Sample.logging_process
  /\ exists curdir output_dir config,
       posix.dirname Sample.script_path = inr curdir
       /\ posix.join curdir "output" = inr output_dir
       /\ posix.join curdir "hardware_config_crossbar.json" = inr config
       /\ paths_passed
            (calls (trace (run posix.dirname posix.join Sample.quiet_process)))
          = [output_dir; config]
       /\ paths_passed
            (calls (trace (run posix.dirname posix.join Sample.logging_process)))
          = [output_dir; config].
Proof.
  split; [discriminate|].
  apply (paths_from_file posix.dirname posix.join
           Sample.quiet_process Sample.logging_process); reflexivity.
Defined.

(** ** What a run shows *)

Lemma observable_origin (t : list event) (o : output) :
  In o (observable t) ->
  (exists c outs r, In (Called c outs r) t /\ In o outs)
  \/ (exists s, In (Printed s) t).
Proof.
  induction t as [|ev t IH]; simpl; [contradiction|].
  intros H. apply in_app_or in H. destruct H as [H|H].
  - destruct ev as [c outs r|s].
    + left. exists c, outs, r. split; [now left|exact H].
    + right. exists s. now left.
  - destruct (IH H) as [(c & outs & r & Hin & Ho)|(s & Hin)].
    + left. exists c, outs, r. split; [now right|exact Ho].
    + right. exists s. now right.
Qed.

Lemma printed_nil (t : list event) (s : string) :
  printed t = [] -> ~ In (Printed s) t.
Proof.
  induction t as [|ev t IH]; simpl; intros H Hin; [contradiction|].
  destruct ev as [c outs r|s0]; simpl in H; [|discriminate].
  destruct Hin as [Hin|Hin]; [discriminate|]. now apply IH.
Qed.

(** With a library that logs at level LOG_DEBUG, the level the script
    itself asks for, every call from the last set_option on shows on
    standard output. *)
Example logging_run :
  succeeded (run posix.dirname posix.join Sample.logging_process)
  /\ observable (trace (run posix.dirname posix.join Sample.logging_process))
     = [ Stdout "set_option"; Stdout "Platform"; Stdout "Program";
         Stdout "Kernel"; Stdout "gate"; Stdout "gate"; Stdout "gate";
         Stdout "gate"; Stdout "gate"; Stdout "gate"; Stdout "add_kernel";
         Stdout "compile"; FileWrite "crossbar_test.qasm" "" ].
Proof. split; reflexivity. Qed.

(** C9 as stated does not hold: on the logging library a complete run
    shows output that no compile call produced. *)
Lemma logging_run_shows_more :
  ~ only_compile_observable posix.dirname posix.join Sample.logging_process.
Proof.
  intros (_ & _ & H).
  specialize (H eq_refl (ql.set_option "log_level" "LOG_DEBUG")
                [Stdout "set_option"] (inr VNone)).
  assert (Hc : is_compile (ql.set_option "log_level" "LOG_DEBUG") = true).
  { apply H; [|discriminate]. vm_compute. tauto. }
  discriminate Hc.
Qed.

(** C9, amended.  The script never calls qasm and prints nothing itself,
    so every output of a run was produced by the library during one of the
    calls the script made; in a run that reaches the end these are the calls
    of the script's sequence, the world is the one the library left, and the
    last event is compile returning. *)
Theorem library_calls_only_observable {W} dirname join (p : process W) :
  (forall c, In c (calls (trace (run dirname join p))) -> is_qasm c = false)
  /\ printed (trace (run dirname join p)) = []
  /\ (forall o,
        In o (observable (trace (run dirname join p))) ->
        exists c outs r,
          In (Called c outs r) (trace (run dirname join p)) /\ In o outs)
  /\ (succeeded (run dirname join p) ->
      exists output_dir config,
        exec (openql p) (script_calls output_dir config) (world p)
        = (st_world (fst (run dirname join p)),
           trace (run dirname join p), None)
        /\ exists t0 outs v,
             trace (run dirname join p)
             = (t0 ++ [Called (ql.compile (Obj 1)) outs (inr v)])%list).
Proof.
  destruct (run_any dirname join p) as ((output_dir & config & Hpre) & Hpr).
  split; [|split; [|split]].
  - intros c Hin. apply (prefix_In _ _ _ Hpre) in Hin. simpl in Hin.
    repeat (destruct Hin as [<-|Hin]; [reflexivity|]). contradiction.
  - exact Hpr.
  - intros o Ho. destruct (observable_origin _ _ Ho) as [H|(s & Hin)].
    + exact H.
    + exfalso. exact (printed_nil _ s Hpr Hin).
  - intros Hs.
    destruct (run_succeeded dirname join p Hs)
      as (curdir & out & cfg & _ & _ & _ & He & _).
    exists out, cfg. split; [exact He|].
    eapply (exec_last (openql p)
              (options out ++ constructions cfg (Obj 0) (Obj 1) (Obj 2)
                 ++ gates (Obj 2) ++ [ql.add_kernel (Obj 1) (Obj 2)])
              (ql.compile (Obj 1))).
    exact He.
Qed.

Lemma library_calls_only_observable_witness :
  exists output_dir config,
    exec Sample.logging (script_calls output_dir config) "LOG_NOTHING"
    = (st_world (fst (run posix.dirname posix.join Sample.logging_process)),
       trace (run posix.dirname posix.join Sample.logging_process), None)
    /\ exists t0 outs v,
         trace (run posix.dirname posix.join Sample.logging_process)
         = (t0 ++ [Called (ql.compile (Obj 1)) outs (inr v)])%list.
Proof.
  apply (library_calls_only_observable posix.dirname posix.join
           Sample.logging_process).
  reflexivity.
Defined.

(** * Further properties of the script *)

(** ** Each step finds the earlier steps done *)

(** X1.  Whenever the script makes a call other than set_option, the four
    options have all been set before it, with the values of the script, and
    no option is set afterwards. *)
Theorem options_before_everything {W} dirname join (p : process W) c :
  In c (calls (trace (run dirname join p))) ->
  phase_of c <> Some SetOptions ->
  exists curdir output_dir rest,
    dirname (__file__ p) = inr curdir
    /\ join curdir "output" = inr output_dir
    /\ calls (trace (run dirname join p)) = (options output_dir ++ rest)%list
    /\ option_settings rest = []
    /\ option_settings (calls (trace (run dirname join p)))
       = [ ("output_dir", output_dir); ("optimize", "no");
           ("scheduler", "ASAP"); ("log_level", "LOG_DEBUG") ].
Proof.
  intros Hin Hc.
  destruct (run_reaches dirname join p c Hin Hc)
    as (curdir & out & cfg & H1 & H2 & _ & Hpre).
  destruct (prefix_split (options out)
              (constructions cfg (Obj 0) (Obj 1) (Obj 2)
                 ++ gates (Obj 2) ++ finish (Obj 1) (Obj 2))
              _ c Hpre Hin) as (k & Hk & Hkpre).
  { simpl. intros H. apply Hc.
    repeat (destruct H as [<-|H]; [reflexivity|]). contradiction. }
  assert (Hrest : option_settings k = []).
  { apply (prefix_flat_map
             (fun c => match c with
                       | ql.set_option k v => [(k, v)]
                       | _ => []
                       end)) in Hkpre.
    apply prefix_of_nil. exact Hkpre. }
  exists curdir, out, k. repeat split; try assumption.
  rewrite Hk. unfold option_settings in *. rewrite flat_map_app, Hrest.
  reflexivity.
Qed.

Lemma options_before_everything_witness :
  exists curdir output_dir rest,
    posix.dirname Sample.script_path = inr curdir
    /\ posix.join curdir "output" = inr output_dir
    /\ calls (trace (run posix.dirname posix.join Sample.strict_process))
       = (options output_dir ++ rest)%list
    /\ option_settings rest = []
    /\ option_settings
         (calls (trace (run posix.dirname posix.join Sample.strict_process)))
       = [ ("output_dir", output_dir); ("optimize", "no");
           ("scheduler", "ASAP"); ("log_level", "LOG_DEBUG") ].
Proof.
  apply (options_before_everything posix.dirname posix.join
           Sample.strict_process (ql.gate (Obj 2) "pepez" [0])).
  - vm_compute. tauto.
  - discriminate.
Defined.

(** X2.  A gate is only ever appended to the kernel the script constructed:
    whenever a gate call is made, the three constructor calls have been
    made before it, the receiver of the gate is the object the Kernel call
    constructed, and it is neither the platform nor the program. *)
Theorem gates_only_on_constructed_kernel {W} dirname join (p : process W)
    kernel name qubits :
  In (ql.gate kernel name qubits) (calls (trace (run dirname join p))) ->
  exists config platform program,
    filter is_constructor (calls (trace (run dirname join p)))
    = [ ql.Platform "crossbar" config platform;
        ql.Program "crossbar_test" platform 2 0 program;
        ql.Kernel "test" platform 2 0 kernel ]
    /\ kernel <> platform /\ kernel <> program.
Proof.
  intros Hin.
  destruct (run_reaches dirname join p _ Hin)
    as (curdir & out & cfg & _ & _ & _ & Hpre); [discriminate|].
  destruct (prefix_split
              (options out ++ constructions cfg (Obj 0) (Obj 1) (Obj 2))
              (gates (Obj 2) ++ finish (Obj 1) (Obj 2))
              _ _ Hpre Hin) as (k & Hk & Hkpre).
  { simpl. intros H.
    repeat (destruct H as [H|H]; [discriminate H|]). contradiction. }
  rewrite Hk in Hin. apply in_app_or in Hin. destruct Hin as [Hin|Hin].
  { simpl in Hin.
    repeat (destruct Hin as [Hin|Hin]; [discriminate Hin|]). contradiction. }
  apply (prefix_In _ _ _ Hkpre) in Hin. simpl in Hin.
  assert (Hkernel : kernel = Obj 2).
  { repeat (destruct Hin as [Hin|Hin];
            [try discriminate Hin; now inversion Hin|]).
    contradiction. }
  subst kernel. exists cfg, (Obj 0), (Obj 1).
  split; [|split; discriminate].
  rewrite Hk, filter_app.
  apply (prefix_filter is_constructor) in Hkpre. simpl in Hkpre.
  apply prefix_of_nil in Hkpre. rewrite Hkpre. reflexivity.
Qed.

Lemma gates_only_on_constructed_kernel_witness :
  exists config platform program,
    filter is_constructor
      (calls (trace (run posix.dirname posix.join Sample.quiet_process)))
    = [ ql.Platform "crossbar" config platform;
        ql.Program "crossbar_test" platform 2 0 program;
        ql.Kernel "test" platform 2 0 (Obj 2) ]
    /\ Obj 2 <> platform /\ Obj 2 <> program.
Proof.
  apply (gates_only_on_constructed_kernel posix.dirname posix.join
           Sample.quiet_process (Obj 2) "cnot" [0; 1]).
  vm_compute. tauto.
Defined.

(** X3.  The kernel is complete when it is added: whenever add_kernel is
    called, all six gates have been appended to the kernel it is called
    with, and the program and the kernel passed are the objects the Program
    and the Kernel call constructed on one platform. *)
Theorem kernel_complete_when_added {W} dirname join (p : process W)
    program kernel :
  In (ql.add_kernel program kernel) (calls (trace (run dirname join p))) ->
  gate_invocations (calls (trace (run dirname join p)))
  = [ (kernel, "pepez", [0]); (kernel, "prepz", [1]); (kernel, "x", [0]);
      (kernel, "cnot", [0; 1]); (kernel, "shuttle_up", [1]);
      (kernel, "measure", [1]) ]
  /\ exists platform,
       In (ql.Program "crossbar_test" platform 2 0 program)
          (calls (trace (run dirname join p)))
       /\ In (ql.Kernel "test" platform 2 0 kernel)
             (calls (trace (run dirname join p))).
Proof.
  intros Hin.
  destruct (run_reaches dirname join p _ Hin)
    as (curdir & out & cfg & _ & _ & _ & Hpre); [discriminate|].
  destruct (prefix_split
              (options out ++ constructions cfg (Obj 0) (Obj 1) (Obj 2)
                 ++ gates (Obj 2))
              (finish (Obj 1) (Obj 2))
              _ _ Hpre Hin) as (k & Hk & Hkpre).
  { simpl. intros H.
    repeat (destruct H as [H|H]; [discriminate H|]). contradiction. }
  rewrite Hk in Hin. apply in_app_or in Hin. destruct Hin as [Hin|Hin].
  { simpl in Hin.
    repeat (destruct Hin as [Hin|Hin]; [discriminate Hin|]). contradiction. }
  apply (prefix_In _ _ _ Hkpre) in Hin. simpl in Hin.
  destruct Hin as [Hin|[Hin|[]]]; [|discriminate Hin].
  inversion Hin; subst program kernel.
  rewrite Hk. split.
  - unfold gate_invocations. rewrite flat_map_app.
    apply (prefix_flat_map
             (fun c => match c with
                       | ql.gate k name qubits => [(k, name, qubits)]
                       | _ => []
                       end)) in Hkpre.
    simpl in Hkpre. apply prefix_of_nil in Hkpre. rewrite Hkpre.
    reflexivity.
  - exists (Obj 0). split; apply in_or_app; left; simpl; tauto.
Qed.

Lemma kernel_complete_when_added_witness :
  gate_invocations
    (calls (trace (run posix.dirname posix.join Sample.quiet_process)))
  = [ (Obj 2, "pepez", [0]); (Obj 2, "prepz", [1]); (Obj 2, "x", [0]);
      (Obj 2, "cnot", [0; 1]); (Obj 2, "shuttle_up", [1]);
      (Obj 2, "measure", [1]) ]
  /\ exists platform,
       In (ql.Program "crossbar_test" platform 2 0 (Obj 1))
          (calls (trace (run posix.dirname posix.join Sample.quiet_process)))
       /\ In (ql.Kernel "test" platform 2 0 (Obj 2))
             (calls (trace (run posix.dirname posix.join Sample.quiet_process))).
Proof.
  apply (kernel_complete_when_added posix.dirname posix.join
           Sample.quiet_process (Obj 1) (Obj 2)).
  vm_compute. tauto.
Defined.

(** X4.  compile is only reached with everything in place: whenever
    compile is called, the three path computations went through and every
    other call of the script has been made before it, so the program
    compiled is the one the kernel was added to. *)
Theorem compile_means_all_calls_made {W} dirname join (p : process W)
    program :
  In (ql.compile program) (calls (trace (run dirname join p))) ->
  exists curdir output_dir config kernel,
    dirname (__file__ p) = inr curdir
    /\ join curdir "output" = inr output_dir
    /\ join curdir "hardware_config_crossbar.json" = inr config
    /\ calls (trace (run dirname join p)) = script_calls output_dir config
    /\ In (ql.add_kernel program kernel) (calls (trace (run dirname join p))).
Proof.
  intros Hin.
  destruct (run_reaches dirname join p _ Hin)
    as (curdir & out & cfg & H1 & H2 & H3 & Hpre); [discriminate|].
  destruct (prefix_split
              (options out ++ constructions cfg (Obj 0) (Obj 1) (Obj 2)
                 ++ gates (Obj 2) ++ [ql.add_kernel (Obj 1) (Obj 2)])
              [ql.compile (Obj 1)]
              _ _ Hpre Hin) as (k & Hk & Hkpre).
  { simpl. intros H.
    repeat (destruct H as [H|H]; [discriminate H|]). contradiction. }
  rewrite Hk in Hin. apply in_app_or in Hin. destruct Hin as [Hin|Hin].
  { simpl in Hin.
    repeat (destruct Hin as [Hin|Hin]; [discriminate Hin|]). contradiction. }
  destruct Hkpre as [k' Hk'].
  destruct k as [|c0 k]; [contradiction|].
  simpl in Hk'. inversion Hk' as [[Hc0 Hnil]].
  symmetry in Hnil. apply app_eq_nil in Hnil. destruct Hnil as [-> _].
  subst c0. destruct Hin as [Hin|[]]. inversion Hin; subst program.
  exists curdir, out, cfg, (Obj 2). rewrite Hk.
  repeat split; try assumption.
  apply in_or_app. left. simpl. tauto.
Qed.

Lemma compile_means_all_calls_made_witness :
  exists curdir output_dir config kernel,
    posix.dirname Sample.script_path = inr curdir
    /\ posix.join curdir "output" = inr output_dir
    /\ posix.join curdir "hardware_config_crossbar.json" = inr config
    /\ calls (trace (run posix.dirname posix.join Sample.logging_process))
       = script_calls output_dir config
    /\ In (ql.add_kernel (Obj 1) kernel)
          (calls (trace (run posix.dirname posix.join Sample.logging_process))).
Proof.
  apply (compile_means_all_calls_made posix.dirname posix.join
           Sample.logging_process (Obj 1)).
  vm_compute. tauto.
Defined.

(** ** When a path computation raises *)

(** X5.  When [os.path.dirname(__file__)] or the join for the output
    directory raises, the script ends with that exception before it has
    touched the library: no call is made, no object is created and the
    world is as it was. *)
Theorem path_failure_before_any_call {W} dirname join (p : process W) e :
  (dirname (__file__ p) = inl e
   \/ exists curdir,
        dirname (__file__ p) = inr curdir /\ join curdir "output" = inl e) ->
  run dirname join p = (initial p, inl e).
Proof.
  unfold run, example, bind, get_file, lift.
  intros [H|(curdir & H1 & H2)].
  - now rewrite H.
  - now rewrite H1, H2.
Qed.

Lemma path_failure_before_any_call_witness :
  run Sample.no_dirname posix.join Sample.logging_process
  = (initial Sample.logging_process, inl Sample.bad_path).
Proof.
  apply (path_failure_before_any_call Sample.no_dirname posix.join
           Sample.logging_process Sample.bad_path).
  left. reflexivity.
Defined.

(** X6.  The configuration path is computed after the options are set.
    When that join raises, the script fails, only set_option calls have
    been made and no object has been created; if none of the set_option
    calls raised, all four were made and the exception that comes out is
    the one of the join. *)
Theorem config_failure_after_options {W} dirname join (p : process W)
    curdir output_dir e :
  dirname (__file__ p) = inr curdir ->
  join curdir "output" = inr output_dir ->
  join curdir "hardware_config_crossbar.json" = inl e ->
  prefix (calls (trace (run dirname join p))) (options output_dir)
  /\ st_next (fst (run dirname join p)) = 0%nat
  /\ (exists e', outcome (run dirname join p) = inl e')
  /\ (no_call_raised (trace (run dirname join p)) ->
      calls (trace (run dirname join p)) = options output_dir
      /\ outcome (run dirname join p) = inl e).
Proof.
  intros H1 H2 H3.
  assert (Hp : plan dirname join (__file__ p) = (options output_dir, Some e)).
  { unfold plan. now rewrite H1, H2, H3. }
  destruct (exec (openql p) (options output_dir) (world p))
    as [[w t] r] eqn:He.
  destruct (run_plan dirname join p _ _ _ _ _ Hp He) as (Ht & _ & Ho & _).
  split; [|split; [|split]].
  - rewrite Ht. eapply exec_prefix, He.
  - eapply run_no_config; eassumption.
  - rewrite Ho. destruct r as [e1|]; [now exists e1|now exists e].
  - intros Hq. rewrite Ht in *. destruct r as [e1|].
    + exfalso.
      destruct (exec_raised _ _ _ _ _ _ He) as (t0 & c & outs & -> & _).
      apply (Hq e1). exists c, outs. apply in_or_app. right. now left.
    + split; [eapply exec_all, He|exact Ho].
Qed.

Lemma config_failure_after_options_witness :
  prefix (calls (trace (run posix.dirname Sample.picky_join
                          Sample.quiet_process)))
         (options "/home/user/OpenQL/src/ql/arch/crossbar/output")
  /\ st_next (fst (run posix.dirname Sample.picky_join Sample.quiet_process))
     = 0%nat
  /\ (exists e',
        outcome (run posix.dirname Sample.picky_join Sample.quiet_process)
        = inl e')
  /\ (no_call_raised
        (trace (run posix.dirname Sample.picky_join Sample.quiet_process)) ->
      calls (trace (run posix.dirname Sample.picky_join Sample.quiet_process))
      = options "/home/user/OpenQL/src/ql/arch/crossbar/output"
      /\ outcome (run posix.dirname Sample.picky_join Sample.quiet_process)
         = inl Sample.bad_path).
Proof.
  apply (config_failure_after_options posix.dirname Sample.picky_join
           Sample.quiet_process "/home/user/OpenQL/src/ql/arch/crossbar");
    reflexivity.
Defined.

(** ** Runs against each other and against the library *)

(** X7.  Two runs of the script with the same [__file__] agree on the
    calls they both make, whatever the libraries answer and wherever one of
    them stops: the calls of one run are an initial segment of the calls of
    the other. *)
Theorem runs_agree_on_common_calls {W1 W2} dirname join
    (p1 : process W1) (p2 : process W2) :
  __file__ p1 = __file__ p2 ->
  prefix (calls (trace (run dirname join p1)))
         (calls (trace (run dirname join p2)))
  \/ prefix (calls (trace (run dirname join p2)))
            (calls (trace (run dirname join p1))).
Proof.
  intros Hf.
  apply (prefix_comparable (fst (plan dirname join (__file__ p1)))).
  - apply run_calls_plan.
  - rewrite Hf. apply run_calls_plan.
Qed.

Lemma runs_agree_on_common_calls_witness :
  prefix (calls (trace (run posix.dirname posix.join Sample.strict_process)))
         (calls (trace (run posix.dirname posix.join Sample.logging_process)))
  \/ prefix (calls (trace (run posix.dirname posix.join Sample.logging_process)))
            (calls (trace (run posix.dirname posix.join Sample.strict_process))).
Proof.
  apply (runs_agree_on_common_calls posix.dirname posix.join
           Sample.strict_process Sample.logging_process).
  reflexivity.
Defined.

(** X8.  In every run, complete or not, the events and the world the script
    leaves are those of calling the library on the planned calls one after
    the other, each on the world the one before left, up to the first call
    that raises: the script repeats, skips and undoes nothing, and its
    outcome is the exception of that call, else the exception of the path
    computation that cut the plan short, else success. *)
Theorem run_drives_library {W} dirname join (p : process W) :
  exists r,
    exec (openql p) (fst (plan dirname join (__file__ p))) (world p)
    = (st_world (fst (run dirname join p)), trace (run dirname join p), r)
    /\ outcome (run dirname join p)
       = finish_with r (snd (plan dirname join (__file__ p))).
Proof.
  destruct (plan dirname join (__file__ p)) as [cs pe] eqn:Hp.
  destruct (exec (openql p) cs (world p)) as [[w t] r] eqn:He.
  destruct (run_plan dirname join p _ _ _ _ _ Hp He) as (Ht & Hw & Ho & _).
  exists r. simpl. rewrite He, Ht, Hw, Ho. split; reflexivity.
Qed.

(** ** The gates *)

(** X9.  Every gate call has one qubit operand, except cnot which has the
    two distinct operands 0 and 1; no gate is given an empty or a repeated
    operand list. *)
Theorem gate_operands {W} dirname join (p : process W) kernel name qubits :
  In (ql.gate kernel name qubits) (calls (trace (run dirname join p))) ->
  NoDup qubits
  /\ (name = "cnot" /\ qubits = [0; 1]
      \/ name <> "cnot" /\ exists q, qubits = [q]).
Proof.
  intros Hin.
  destruct (run_any dirname join p) as ((out & cfg & Hpre) & _).
  apply (prefix_In _ _ _ Hpre) in Hin. simpl in Hin.
  repeat (destruct Hin as [Hin|Hin];
          [first
             [discriminate Hin
             |inversion Hin; subst; split;
              [repeat constructor; simpl; intuition discriminate
              |first [left; split; reflexivity
                     |right; split; [discriminate|eexists; reflexivity]]]]|]).
  contradiction.
Qed.

Lemma gate_operands_witness :
  NoDup [0; 1]
  /\ ("cnot" = "cnot" /\ [0; 1] = [0; 1]
      \/ "cnot" <> "cnot" /\ exists q, [0; 1] = [q]).
Proof.
  apply (gate_operands posix.dirname posix.join Sample.quiet_process
           (Obj 2) "cnot" [0; 1]).
  vm_compute. tauto.
Defined.

(** X10.  The first gate is sent under the name pepez.  When the library
    raises on that call, the script ends with that exception, pepez [0] on
    the constructed kernel is the only gate call made, and neither
    add_kernel nor compile is ever called. *)
Theorem rejected_first_gate_stops_script {W} dirname join (p : process W)
    kernel qubits outs e :
  In (Called (ql.gate kernel "pepez" qubits) outs (inl e))
     (trace (run dirname join p)) ->
  outcome (run dirname join p) = inl e
  /\ gate_invocations (calls (trace (run dirname join p)))
     = [(kernel, "pepez", [0])]
  /\ (exists platform,
        In (ql.Kernel "test" platform 2 0 kernel)
           (calls (trace (run dirname join p))))
  /\ (forall c,
        In c (calls (trace (run dirname join p))) ->
        phase_of c <> Some Compile).
Proof.
  intros Hin.
  destruct (plan dirname join (__file__ p)) as [cs pe] eqn:Hp.
  destruct (exec (openql p) cs (world p)) as [[w t] r] eqn:He.
  destruct (run_plan dirname join p _ _ _ _ _ Hp He) as (Ht & _ & Ho & _).
  assert (Hcall : In (ql.gate kernel "pepez" qubits)
                     (calls (trace (run dirname join p)))).
  { apply in_flat_map. eexists. split; [exact Hin|]. now left. }
  destruct r as [e1|].
  2:{ exfalso. rewrite Ht in Hin.
      apply (exec_quiet _ _ _ _ _ He e). now exists (ql.gate kernel "pepez" qubits), outs. }
  destruct (exec_raised _ _ _ _ _ _ He) as (t0 & c1 & o1 & Et & Hq).
  rewrite Ht, Et in Hin. apply in_app_or in Hin. destruct Hin as [Hin|Hin].
  { exfalso. apply (Hq e). now exists (ql.gate kernel "pepez" qubits), outs. }
  destruct Hin as [Hin|[]]. inversion Hin; subst c1 o1 e1. clear Hin.
  split; [exact Ho|].
  destruct (run_reaches dirname join p _ Hcall)
    as (curdir & out & cfg & _ & _ & _ & Hpre); [discriminate|].
  destruct (prefix_split
              (options out ++ constructions cfg (Obj 0) (Obj 1) (Obj 2))
              (gates (Obj 2) ++ finish (Obj 1) (Obj 2))
              _ _ Hpre Hcall) as (k & Hk & Hkpre).
  { simpl. intros H.
    repeat (destruct H as [H|H]; [discriminate H|]). contradiction. }
  (* the calls end in the rejected gate, and so does [k] *)
  assert (Hend : calls (trace (run dirname join p))
                 = (calls t0 ++ [ql.gate kernel "pepez" qubits])%list).
  { rewrite Ht, Et. apply calls_app. }
  assert (Hkne : k <> []).
  { intros ->. rewrite app_nil_r in Hk. rewrite Hk in Hcall. simpl in Hcall.
    repeat (destruct Hcall as [Hcall|Hcall]; [discriminate Hcall|]).
    contradiction. }
  destruct (exists_last Hkne) as (front & c & ->).
  rewrite Hend, app_assoc in Hk. apply app_inj_tail in Hk.
  destruct Hk as [Hfront <-].
  assert (front = []) as ->.
  { apply (only_first is_pepez (ql.gate (Obj 2) "pepez" [0])
             (tl (gates (Obj 2) ++ finish (Obj 1) (Obj 2)))
           ) with (c := ql.gate kernel "pepez" qubits).
    - simpl. intros y Hy.
      repeat (destruct Hy as [<-|Hy]; [reflexivity|]). contradiction.
    - exact Hkpre.
    - reflexivity. }
  destruct Hkpre as [k' Hk']. simpl in Hk'. inversion Hk'; subst kernel qubits.
  rewrite Hend, Hfront, app_nil_r.
  split; [reflexivity|]. split.
  - exists (Obj 0). apply in_or_app. left. simpl. tauto.
  - intros c Hc. apply in_app_or in Hc. simpl in Hc.
    destruct Hc as [Hc|[<-|[]]]; [|discriminate].
    repeat (destruct Hc as [<-|Hc]; [discriminate|]). contradiction.
Qed.

Lemma rejected_first_gate_stops_script_witness :
  outcome (run posix.dirname posix.join Sample.strict_process)
  = inl (Sample.unknown_gate "pepez")
  /\ gate_invocations
       (calls (trace (run posix.dirname posix.join Sample.strict_process)))
     = [(Obj 2, "pepez", [0])]
  /\ (exists platform,
        In (ql.Kernel "test" platform 2 0 (Obj 2))
           (calls (trace (run posix.dirname posix.join Sample.strict_process))))
  /\ (forall c,
        In c (calls (trace (run posix.dirname posix.join Sample.strict_process))) ->
        phase_of c <> Some Compile).
Proof.
  apply (rejected_first_gate_stops_script posix.dirname posix.join
           Sample.strict_process (Obj 2) [0] []).
  vm_compute. tauto.
Defined.
